(** * GigOptimizer: the project-selection engine of [app.py]

    A shallow embedding of [optimize_projects] (app.py, lines 83-149) and the
    properties of the selection it returns, followed by the list of skipped
    projects that the results tab of [main] computes from it.

    Numbers.  The columns [total_pay], [hours_required] and [skill_match],
    the hour budget and the threshold are exact rationals ([Q]); sums,
    comparisons and the utilisation quotient are those of exact arithmetic.
    Statements about numeric values use [==] ([Qeq]).

    The solver.  [scipy.optimize.milp] is a library outside the repository.
    It is a parameter of the engine ([Solver]); the properties that depend on
    what it answers are proved from the contract SciPy documents for it
    (section [WithExactSolver]), and [reference_milp], an exhaustive search,
    shows that the contract can be met. *)

From Stdlib Require Import String List Bool Arith Lia QArith Lqa Permutation.
Import ListNotations.
Local Open Scope string_scope.
Local Open Scope list_scope.
Local Open Scope Q_scope.

(** ** Data model *)

(** One row of [projects_df]; the columns are those of
    [create_sample_projects] and of the entry form. *)
Record Project : Type := mkProject {
  project_name : string;
  client : string;
  total_pay : Q;
  hours_required : Q;
  deadline_days : Q;
  skill_match : Q
}.

(** A data frame is the list of its rows, in positional order. *)
Definition DataFrame : Type := list Project.

(** The dictionary [optimization_results]. *)
Record OptimizationResults : Type := mkResults {
  total_earnings : Q;
  total_hours : Q;
  available_hours : Q;
  hours_remaining : Q;
  projects_selected : nat;
  projects_available : nat;
  utilization : Q
}.

(** ** Exceptions

    The body of [try: ... except Exception as e:] is a computation that
    either returns or raises with the text of the exception. *)
Inductive Outcome (A : Type) : Type :=
| Returned (a : A)
| Raised (msg : string).
Arguments Returned {A} a.
Arguments Raised {A} msg.

Definition bind {A B : Type} (m : Outcome A) (k : A -> Outcome B) : Outcome B :=
  match m with
  | Returned a => k a
  | Raised msg => Raised msg
  end.

Notation "x <- m ;; k" := (bind m (fun x => k))
  (at level 61, m at next level, right associativity).

(** ** The interface of [scipy.optimize.milp] *)

(** A bound of a [LinearConstraint]: the code passes [-np.inf] below. *)
Inductive ExtQ : Type :=
| NegInf
| Finite (q : Q)
| PosInf.

Record LinearConstraint : Type := mkLinearConstraint {
  lc_A : list (list Q);
  lc_lb : ExtQ;
  lc_ub : Q
}.

Record Bounds : Type := mkBounds {
  bounds_lb : Q;
  bounds_ub : Q
}.

(** The fields of [OptimizeResult] that the code reads. *)
Record OptimizeResult : Type := mkOptimizeResult {
  success : bool;
  x : list Q;
  message : string
}.

(** [milp c constraints bounds integrality]. *)
Definition Solver : Type :=
  list Q -> LinearConstraint -> Bounds -> list Q -> Outcome OptimizeResult.

(** ** Numeric helpers *)

(** [a >= b] *)
Definition Qgeb (a b : Q) : bool := Qle_bool b a.

(** [a > b] *)
Definition Qgtb (a b : Q) : bool := negb (Qle_bool a b).

(** [Series.sum()] *)
Fixpoint col_sum (l : list Q) : Q :=
  match l with
  | [] => 0
  | q :: l' => q + col_sum l'
  end.

(** ** Eligibility filter (lines 100-102) *)

(** [projects_df['skill_match'] >= min_skill_match] *)
Definition eligible_mask (projects_df : DataFrame) (min_skill_match : Q)
  : list bool :=
  map (fun p => Qgeb (skill_match p) min_skill_match) projects_df.

(** [df[mask]]: the rows at which the mask is [True], in order. *)
Fixpoint boolean_index {A : Type} (rows : list A) (mask : list bool) : list A :=
  match rows, mask with
  | r :: rows', b :: mask' =>
      if b then r :: boolean_index rows' mask' else boolean_index rows' mask'
  | _, _ => []
  end.

(** [projects_df[eligible_mask].reset_index(drop=True)]; dropping the index
    labels leaves the list of rows. *)
Definition eligible_rows (projects_df : DataFrame) (min_skill_match : Q)
  : DataFrame :=
  boolean_index projects_df (eligible_mask projects_df min_skill_match).

(** ** Reading the solution back (lines 129-130) *)

(** Positions, counted from [i], at which the flag is set. *)
Fixpoint where_from (i : nat) (flags : list bool) : list nat :=
  match flags with
  | [] => []
  | b :: flags' =>
      if b then i :: where_from (S i) flags' else where_from (S i) flags'
  end.

(** [result.x > 0.5] *)
Definition above_half (xs : list Q) : list bool :=
  map (fun v => Qgtb v (1 # 2)) xs.

(** [np.where(result.x > 0.5)[0]] *)
Definition selected_indices_of (xs : list Q) : list nat :=
  where_from 0 (above_half xs).

(** The text of the [IndexError] pandas raises from [iloc]. *)
Definition iloc_out_of_bounds : string :=
  "positional indexers are out-of-bounds".

(** [df.iloc[indices]]: a position past the end raises. *)
Fixpoint iloc {A : Type} (rows : list A) (indices : list nat)
  : Outcome (list A) :=
  match indices with
  | [] => Returned []
  | i :: indices' =>
      match nth_error rows i with
      | None => Raised iloc_out_of_bounds
      | Some r => rs <- iloc rows indices' ;; Returned (r :: rs)
      end
  end.

(** ** [optimize_projects] *)

Definition Answer : Type :=
  (option DataFrame * option OptimizationResults * option string)%type.

(** Lines 132-145: the metrics of a selection. *)
Definition optimization_results_of (selected_projects : DataFrame)
    (n_projects : nat) (available : Q) : OptimizationResults :=
  let total_earnings := col_sum (map total_pay selected_projects) in
  let total_hours := col_sum (map hours_required selected_projects) in
  {| total_earnings := total_earnings;
     total_hours := total_hours;
     available_hours := available;
     hours_remaining := available - total_hours;
     projects_selected := length selected_projects;
     projects_available := n_projects;
     utilization :=
       if Qgtb available 0 then (total_hours / available) * 100 else 0 |}.

(** Lines 126-147: the body of the [try]. *)
Definition solve_and_report (milp : Solver) (eligible_df : DataFrame)
    (n_projects : nat) (available : Q) : Outcome Answer :=
  let n_eligible := length eligible_df in
  let earnings := map total_pay eligible_df in
  let c := map Qopp earnings in
  let hours := map hours_required eligible_df in
  let A := [hours] in
  let constraints := mkLinearConstraint A NegInf available in
  let bounds := mkBounds 0 1 in
  let integrality := repeat 1 n_eligible in
  result <- milp c constraints bounds integrality ;;
  if success result then
    let selected_indices := selected_indices_of (x result) in
    selected_projects <- iloc eligible_df selected_indices ;;
    Returned (Some selected_projects,
              Some (optimization_results_of selected_projects n_projects available),
              None)
  else
    Returned (None, None, Some ("Optimization failed: " ++ message result)%string).

Definition optimize_projects (milp : Solver) (projects_df : DataFrame)
    (available min_skill_match : Q) : Answer :=
  let n_projects := length projects_df in
  if Nat.eqb n_projects 0 then
    (None, None, Some "No projects to optimize")
  else
    let eligible_df := eligible_rows projects_df min_skill_match in
    if Nat.eqb (length eligible_df) 0 then
      (None, None, Some "No projects meet the minimum skill match requirement")
    else
      match solve_and_report milp eligible_df n_projects available with
      | Returned answer => answer
      | Raised e => (None, None, Some ("Error during optimization: " ++ e)%string)
      end.

(** ** Sub-selections of the eligible pool *)

(** [Subseq s l]: [s] keeps some of the rows of [l], in their order. *)
Inductive Subseq {A : Type} : list A -> list A -> Prop :=
| Subseq_nil : Subseq [] []
| Subseq_take (a : A) (s l : list A) : Subseq s l -> Subseq (a :: s) (a :: l)
| Subseq_skip (a : A) (s l : list A) : Subseq s l -> Subseq s (a :: l).

Definition pay_of (rows : DataFrame) : Q := col_sum (map total_pay rows).

Definition hours_of (rows : DataFrame) : Q := col_sum (map hours_required rows).

(** [s] is a choice of rows of [pool] that fits the hour budget. *)
Definition FeasibleSelection (pool : DataFrame) (budget : Q) (s : DataFrame)
  : Prop :=
  Subseq s pool /\ hours_of s <= budget.

(** ** What [milp] promises

    The engine always calls [milp] with one constraint row, no lower limit
    on it, the bounds 0 and 1 and every variable integer.  For such a call
    SciPy documents: when [success] is set the vector [x] is an optimal
    solution, that is, a point of the feasible region at which the objective
    [c @ x] is least; and a problem whose feasible region is not empty (it
    is bounded here) is solved. *)

(** [a @ y] *)
Fixpoint dot (a y : list Q) : Q :=
  match a, y with
  | ai :: a', yi :: y' => ai * yi + dot a' y'
  | _, _ => 0
  end.

Definition integral (q : Q) : Prop := exists z : Z, q == inject_Z z.

(** The feasible region of [milp c (LinearConstraint [row] -inf ub)
    (Bounds 0 1) ones] for [n] variables. *)
Definition feasible_point (row : list Q) (ub : Q) (n : nat) (y : list Q)
  : Prop :=
  length y = n /\
  Forall (fun q => 0 <= q /\ q <= 1 /\ integral q) y /\
  dot row y <= ub.

Definition knapsack_call (milp : Solver) (c row : list Q) (ub : Q)
  : Outcome OptimizeResult :=
  milp c (mkLinearConstraint [row] NegInf ub) (mkBounds 0 1)
       (repeat 1 (length c)).

Definition milp_sound (milp : Solver) : Prop :=
  forall (c row : list Q) (ub : Q) (r : OptimizeResult),
    length row = length c ->
    knapsack_call milp c row ub = Returned r ->
    success r = true ->
    feasible_point row ub (length c) (x r) /\
    forall y, feasible_point row ub (length c) y -> dot c (x r) <= dot c y.

Definition milp_complete (milp : Solver) : Prop :=
  forall (c row : list Q) (ub : Q) (y : list Q),
    length row = length c ->
    feasible_point row ub (length c) y ->
    exists r, knapsack_call milp c row ub = Returned r /\ success r = true.

(** ** A solver that meets the contract: exhaustive search *)

(** Every inclusion vector of length [n]. *)
Fixpoint all_masks (n : nat) : list (list bool) :=
  match n with
  | O => [[]]
  | S n' => map (cons true) (all_masks n') ++ map (cons false) (all_masks n')
  end.

Definition indicator (m : list bool) : list Q :=
  map (fun b : bool => if b then 1 else 0) m.

(** The first element of [l] at which [f] is least. *)
Fixpoint argmin {A : Type} (f : A -> Q) (l : list A) : option A :=
  match l with
  | [] => None
  | a :: l' =>
      match argmin f l' with
      | None => Some a
      | Some b => if Qle_bool (f a) (f b) then Some a else Some b
      end
  end.

Definition fits (row : list Q) (ub : Q) (m : list bool) : bool :=
  Qle_bool (dot row (indicator m)) ub.

Definition supported (c : list Q) (constraints : LinearConstraint)
    (bounds : Bounds) (integrality : list Q) : option (list Q) :=
  match lc_A constraints, lc_lb constraints with
  | [row], NegInf =>
      if (length row =? length c)%nat
         && (length integrality =? length c)%nat
         && forallb (fun i => Qeq_bool i 1) integrality
         && Qeq_bool (bounds_lb bounds) 0
         && Qeq_bool (bounds_ub bounds) 1
      then Some row else None
  | _, _ => None
  end.

Definition reference_milp : Solver :=
  fun c constraints bounds integrality =>
    match supported c constraints bounds integrality with
    | None => Raised "reference_milp: not a 0/1 problem with one constraint row"
    | Some row =>
        match argmin (fun m => dot c (indicator m))
                     (filter (fits row (lc_ub constraints))
                             (all_masks (length c))) with
        | Some m =>
            Returned {| success := true;
                        x := indicator m;
                        message := "Optimization terminated successfully." |}
        | None =>
            Returned {| success := false;
                        x := [];
                        message := "The problem is infeasible." |}
        end
    end.

(** A solver that raises whatever it is given: it shows which inputs reach
    the call of [milp]. *)
Definition raising_milp (msg : string) : Solver :=
  fun _ _ _ _ => Raised msg.

(** ** Sample inputs *)

Definition gig (pay hours skill : Q) : Project :=
  {| project_name := "gig"; client := "client";
     total_pay := pay; hours_required := hours;
     deadline_days := 14; skill_match := skill |}.

(** The first four rows of [create_sample_projects]. *)
Definition sample_four : DataFrame :=
  [ mkProject "E-commerce Website Redesign" "TechStart Inc" 2500 40 14 95;
    mkProject "Mobile App UI/UX Design" "HealthApp Co" 1800 25 10 80;
    mkProject "Data Dashboard Development" "FinanceMetrics" 3200 50 21 90;
    mkProject "API Integration Project" "RetailHub" 1500 20 7 75 ].

(** Rows 2 and 3 of [sample_four], and the metrics of taking them out of
    four candidates with 80 hours available. *)
Definition sample_selected : DataFrame :=
  [ mkProject "Mobile App UI/UX Design" "HealthApp Co" 1800 25 10 80;
    mkProject "Data Dashboard Development" "FinanceMetrics" 3200 50 21 90 ].

Definition sample_results : OptimizationResults :=
  optimization_results_of sample_selected 4 80.


(** Rows no entry form would produce: a negative pay, a negative number of
    hours. *)
Definition malformed_pair : DataFrame := [ gig (-5) 1 50; gig 7 (-2) 50 ].

(** ** The failure messages *)

Definition msg_no_projects : string := "No projects to optimize".

Definition msg_no_eligible : string :=
  "No projects meet the minimum skill match requirement".

Definition failure (msg : string) : Answer := (None, None, Some msg).

(** ** The results tab of [main] (lines 407-409) *)

(** [names.isin(...)] on one name *)
Definition isin (name : string) (names : list string) : bool :=
  existsb (String.eqb name) names.

(** The rows whose name is not the name of a selected row:
    [projects_df[~projects_df['project_name'].isin(selected['project_name'])]] *)
Definition skipped_projects (df selected : DataFrame) : DataFrame :=
  filter (fun p => negb (isin (project_name p) (map project_name selected)))
         df.

(** * Properties *)

(** ** Comparisons *)

Lemma Qgeb_le (a b : Q) : Qgeb a b = true <-> b <= a.
Proof. unfold Qgeb. apply Qle_bool_iff. Qed.

Lemma Qgtb_lt (a b : Q) : Qgtb a b = true <-> b < a.
Proof.
  unfold Qgtb. rewrite negb_true_iff. split.
  - intros H. apply Qnot_le_lt. intros Hle.
    apply Qle_bool_iff in Hle. congruence.
  - intros H. destruct (Qle_bool a b) eqn:E; [|reflexivity].
    apply Qle_bool_iff in E. exfalso. apply (Qlt_not_le _ _ H E).
Qed.

Lemma Qgtb_not_lt (a b : Q) : Qgtb a b = false <-> ~ b < a.
Proof.
  rewrite <- Qgtb_lt. destruct (Qgtb a b); split; congruence.
Qed.

(** ** Boolean indexing and sub-selections *)

Lemma boolean_index_filter {A : Type} (f : A -> bool) (l : list A) :
  boolean_index l (map f l) = filter f l.
Proof.
  induction l as [|a l IH]; simpl; [reflexivity|].
  destruct (f a); rewrite IH; reflexivity.
Qed.

Lemma eligible_rows_filter (df : DataFrame) (t : Q) :
  eligible_rows df t = filter (fun p => Qgeb (skill_match p) t) df.
Proof. apply boolean_index_filter. Qed.

Lemma Subseq_nil_l {A : Type} (l : list A) : Subseq [] l.
Proof. induction l; constructor; assumption. Qed.

Lemma Subseq_boolean_index {A : Type} (l : list A) (mask : list bool) :
  Subseq (boolean_index l mask) l.
Proof.
  revert mask. induction l as [|a l IH]; intros [|b mask]; simpl;
    try apply Subseq_nil_l.
  destruct b; constructor; apply IH.
Qed.

Lemma Subseq_mask {A : Type} (s l : list A) :
  Subseq s l ->
  exists mask, length mask = length l /\ s = boolean_index l mask.
Proof.
  induction 1 as [|a s l _ [m [Hl Hs]]|a s l _ [m [Hl Hs]]].
  - exists []. split; reflexivity.
  - exists (true :: m). simpl. split; congruence.
  - exists (false :: m). simpl. split; congruence.
Qed.

Lemma Subseq_length {A : Type} (s l : list A) :
  Subseq s l -> (length s <= length l)%nat.
Proof. induction 1; simpl; lia. Qed.

Lemma Subseq_In {A : Type} (s l : list A) (a : A) :
  Subseq s l -> In a s -> In a l.
Proof.
  induction 1; simpl; intros Hin; auto.
  destruct Hin; auto.
Qed.

Lemma Subseq_filter {A : Type} (f : A -> bool) (l : list A) :
  Subseq (filter f l) l.
Proof. rewrite <- boolean_index_filter. apply Subseq_boolean_index. Qed.

(** A sub-selection all of whose rows pass [f] is a sub-selection of
    [filter f l]: the filter keeps every passing row. *)
Lemma Subseq_filter_greatest {A : Type} (f : A -> bool) (s l : list A) :
  Subseq s l -> Forall (fun a => f a = true) s -> Subseq s (filter f l).
Proof.
  induction 1 as [|a s l _ IH|a s l _ IH]; intros Hall; simpl.
  - constructor.
  - inversion Hall as [|? ? Ha Hs]; subst. rewrite Ha.
    constructor. apply IH. assumption.
  - destruct (f a); [constructor|]; apply IH; assumption.
Qed.

(** ** Reading the solution back *)

Lemma iloc_where_from {A : Type} (flags : list bool) :
  forall (pre rows : list A),
    (length flags <= length rows)%nat ->
    iloc (pre ++ rows) (where_from (length pre) flags)
    = Returned (boolean_index rows flags).
Proof.
  induction flags as [|b flags IH]; intros pre rows Hlen.
  - destruct rows; reflexivity.
  - destruct rows as [|r rows]; simpl in Hlen; [lia|].
    assert (Hnext : iloc (pre ++ r :: rows) (where_from (S (length pre)) flags)
                    = Returned (boolean_index rows flags)).
    { replace (S (length pre)) with (length (pre ++ [r]))
        by (rewrite length_app; simpl; lia).
      replace (pre ++ r :: rows) with ((pre ++ [r]) ++ rows)
        by (rewrite <- app_assoc; reflexivity).
      apply IH. lia. }
    simpl. destruct b; [|exact Hnext].
    simpl. rewrite nth_error_app2 by lia.
    rewrite Nat.sub_diag. simpl. rewrite Hnext. reflexivity.
Qed.

Lemma iloc_selected (rows : DataFrame) (xs : list Q) :
  length xs = length rows ->
  iloc rows (selected_indices_of xs)
  = Returned (boolean_index rows (above_half xs)).
Proof.
  intros Hlen. unfold selected_indices_of.
  apply (iloc_where_from _ [] rows). unfold above_half.
  rewrite length_map. lia.
Qed.

(** ** Objective and constraint row as sums over the chosen rows *)

Lemma binary_cases (q : Q) :
  0 <= q -> q <= 1 -> integral q -> q == 0 \/ q == 1.
Proof.
  intros H0 H1 [z Hz]. rewrite Hz in H0, H1.
  change 0 with (inject_Z 0) in H0. change 1 with (inject_Z 1) in H1.
  rewrite <- Zle_Qle in H0, H1.
  assert (Hz01 : (z = 0 \/ z = 1)%Z) by lia.
  destruct Hz01; subst z; [left|right]; exact Hz.
Qed.

Lemma indicator_binary (b : bool) :
  0 <= (if b then 1 else 0) /\ (if b then 1 else 0) <= 1
  /\ integral (if b then 1 else 0).
Proof.
  destruct b; (split; [|split]); try (unfold Qle; simpl; lia).
  - exists 1%Z. reflexivity.
  - exists 0%Z. reflexivity.
Qed.

Lemma above_half_binary (q : Q) :
  q == 0 \/ q == 1 -> (if Qgtb q (1 # 2) then 1 else 0) == q.
Proof.
  intros Hq. destruct (Qgtb q (1 # 2)) eqn:E.
  - apply Qgtb_lt in E. destruct Hq as [Hq|Hq]; lra.
  - apply Qgtb_not_lt in E. destruct Hq as [Hq|Hq]; [lra|].
    exfalso. apply E. lra.
Qed.

Lemma feasible_point_binary (row : list Q) (ub : Q) (n : nat) (y : list Q) :
  feasible_point row ub n y -> Forall (fun q => q == 0 \/ q == 1) y.
Proof.
  intros [_ [Hall _]]. induction Hall as [|q y [H0 [H1 Hi]] _ IH];
    constructor; [apply binary_cases|]; assumption.
Qed.

Lemma dot_above_half (a y : list Q) :
  Forall (fun q => q == 0 \/ q == 1) y ->
  dot a (indicator (above_half y)) == dot a y.
Proof.
  intros Hall. revert a.
  induction Hall as [|q y Hq _ IH]; intros [|ai a]; simpl; try reflexivity.
  rewrite IH, (above_half_binary q Hq). reflexivity.
Qed.

Lemma dot_indicator_rows (f : Project -> Q) (rows : DataFrame)
    (mask : list bool) :
  dot (map f rows) (indicator mask)
  == col_sum (map f (boolean_index rows mask)).
Proof.
  revert mask. induction rows as [|r rows IH]; intros [|b mask]; simpl;
    try reflexivity.
  rewrite IH. destruct b; simpl; lra.
Qed.

Lemma dot_opp (a y : list Q) : dot (map Qopp a) y == - dot a y.
Proof.
  revert y. induction a as [|ai a IH]; intros [|yi y]; simpl;
    try reflexivity.
  rewrite IH. lra.
Qed.

Lemma length_indicator (m : list bool) : length (indicator m) = length m.
Proof. apply length_map. Qed.

Lemma length_above_half (y : list Q) : length (above_half y) = length y.
Proof. apply length_map. Qed.

Lemma indicator_feasible (row : list Q) (ub : Q) (m : list bool) :
  dot row (indicator m) <= ub ->
  feasible_point row ub (length m) (indicator m).
Proof.
  intros Hfit. split; [apply length_indicator|]. split; [|exact Hfit].
  unfold indicator. apply Forall_forall. intros q Hq.
  apply in_map_iff in Hq. destruct Hq as [b [<- _]].
  apply indicator_binary.
Qed.

(** ** The exhaustive search meets the contract *)

Lemma all_masks_length (n : nat) (m : list bool) :
  In m (all_masks n) -> length m = n.
Proof.
  revert m. induction n as [|n IH]; simpl; intros m Hin.
  - destruct Hin as [<-|[]]. reflexivity.
  - apply in_app_or in Hin.
    destruct Hin as [Hin|Hin]; apply in_map_iff in Hin;
      destruct Hin as [m' [<- Hm']]; simpl; f_equal; apply IH; exact Hm'.
Qed.

Lemma all_masks_complete (m : list bool) : In m (all_masks (length m)).
Proof.
  induction m as [|b m IH]; simpl; [left; reflexivity|].
  apply in_or_app. destruct b; [left|right]; apply in_map; exact IH.
Qed.

Lemma argmin_none {A : Type} (f : A -> Q) (l : list A) :
  argmin f l = None -> l = [].
Proof.
  destruct l as [|a l]; simpl; [reflexivity|].
  destruct (argmin f l); [destruct (Qle_bool (f a) (f a0))|]; discriminate.
Qed.

Lemma argmin_least {A : Type} (f : A -> Q) (l : list A) (a : A) :
  argmin f l = Some a -> In a l /\ forall b, In b l -> f a <= f b.
Proof.
  revert a. induction l as [|h l IH]; simpl; intros a Harg; [discriminate|].
  destruct (argmin f l) as [m|] eqn:E.
  - destruct (IH m eq_refl) as [Hin Hmin].
    destruct (Qle_bool (f h) (f m)) eqn:Hle; inversion Harg; subst a.
    + apply Qle_bool_iff in Hle. split; [left; reflexivity|].
      intros b [<-|Hb]; [apply Qle_refl|].
      apply Qle_trans with (f m); [exact Hle|apply Hmin; exact Hb].
    + split; [right; exact Hin|].
      intros b [<-|Hb]; [|apply Hmin; exact Hb].
      apply Qlt_le_weak. apply Qnot_le_lt. intros Hc.
      apply Qle_bool_iff in Hc. congruence.
  - inversion Harg; subst a. apply argmin_none in E. subst l.
    split; [left; reflexivity|]. intros b [<-|[]]. apply Qle_refl.
Qed.

Lemma supported_knapsack (c row : list Q) (ub : Q) :
  length row = length c ->
  supported c (mkLinearConstraint [row] NegInf ub) (mkBounds 0 1)
            (repeat 1 (length c)) = Some row.
Proof.
  intros Hlen. unfold supported. simpl.
  rewrite Hlen, repeat_length, !Nat.eqb_refl. simpl.
  replace (forallb (fun i => Qeq_bool i 1) (repeat 1 (length c))) with true;
    [reflexivity|].
  symmetry. apply forallb_forall. intros q Hq.
  apply repeat_spec in Hq. subst q. reflexivity.
Qed.

(** Every point of the feasible region is, up to [==], an inclusion vector
    that the search visits. *)
Lemma feasible_point_visited (c row : list Q) (ub : Q) (y : list Q) :
  feasible_point row ub (length c) y ->
  In (above_half y) (filter (fits row ub) (all_masks (length c))).
Proof.
  intros Hy. pose proof (feasible_point_binary _ _ _ _ Hy) as Hbin.
  destruct Hy as [Hlen [_ Hfit]].
  apply filter_In. split.
  - rewrite <- Hlen, <- length_above_half. apply all_masks_complete.
  - unfold fits. apply Qle_bool_iff.
    rewrite dot_above_half by exact Hbin. exact Hfit.
Qed.

Lemma reference_milp_sound : milp_sound reference_milp.
Proof.
  intros c row ub r Hlen Hcall Hsucc.
  unfold knapsack_call, reference_milp in Hcall.
  rewrite supported_knapsack in Hcall by exact Hlen. simpl in Hcall.
  destruct (argmin _ _) as [m|] eqn:E;
    inversion Hcall; subst r; simpl in *; [|discriminate].
  apply argmin_least in E. destruct E as [Hin Hmin].
  apply filter_In in Hin. destruct Hin as [Hmask Hfit].
  apply all_masks_length in Hmask. apply Qle_bool_iff in Hfit.
  split.
  - rewrite <- Hmask. apply indicator_feasible. exact Hfit.
  - intros y Hy.
    rewrite <- (dot_above_half c y (feasible_point_binary _ _ _ _ Hy)).
    apply Hmin. apply feasible_point_visited. exact Hy.
Qed.

Lemma reference_milp_complete : milp_complete reference_milp.
Proof.
  intros c row ub y Hlen Hy.
  unfold knapsack_call, reference_milp.
  rewrite supported_knapsack by exact Hlen. simpl.
  destruct (argmin _ _) as [m|] eqn:E.
  - eexists. split; reflexivity.
  - apply argmin_none in E.
    pose proof (feasible_point_visited c row ub y Hy) as Hin.
    rewrite E in Hin. destruct Hin.
Qed.

(** ** The paths of [optimize_projects] *)

Lemma eligible_nonempty_frame (df : DataFrame) (t : Q) :
  eligible_rows df t <> [] -> df <> [].
Proof. intros H ->. apply H. reflexivity. Qed.

Lemma length_nonzero {A : Type} (l : list A) :
  l <> [] -> (length l =? 0)%nat = false.
Proof. destruct l; [congruence|reflexivity]. Qed.

Lemma optimize_projects_none_eligible (milp : Solver) (df : DataFrame)
    (h t : Q) :
  df <> [] -> eligible_rows df t = [] ->
  optimize_projects milp df h t
  = (None, None, Some "No projects meet the minimum skill match requirement").
Proof.
  intros Hdf Hel. unfold optimize_projects.
  rewrite (length_nonzero df Hdf), Hel. reflexivity.
Qed.

Lemma optimize_projects_solves (milp : Solver) (df : DataFrame) (h t : Q) :
  eligible_rows df t <> [] ->
  optimize_projects milp df h t
  = match solve_and_report milp (eligible_rows df t) (length df) h with
    | Returned answer => answer
    | Raised e => (None, None, Some ("Error during optimization: " ++ e)%string)
    end.
Proof.
  intros Hel. unfold optimize_projects.
  rewrite (length_nonzero df (eligible_nonempty_frame df t Hel)).
  rewrite (length_nonzero _ Hel). reflexivity.
Qed.

Lemma solve_and_report_call (milp : Solver) (el : DataFrame) (n : nat)
    (h : Q) :
  solve_and_report milp el n h
  = (result <- knapsack_call milp (map Qopp (map total_pay el))
                             (map hours_required el) h ;;
     if success result then
       sel <- iloc el (selected_indices_of (x result)) ;;
       Returned (Some sel, Some (optimization_results_of sel n h), None)
     else
       Returned (None, None,
                 Some ("Optimization failed: " ++ message result)%string)).
Proof.
  unfold solve_and_report, knapsack_call. rewrite !length_map. reflexivity.
Qed.

(** A returned selection comes from a successful answer of the solver. *)
Lemma optimize_projects_success_inv (milp : Solver) (df : DataFrame)
    (h t : Q) (sel : DataFrame) (o : option OptimizationResults)
    (e : option string) :
  optimize_projects milp df h t = (Some sel, o, e) ->
  exists r,
    knapsack_call milp (map Qopp (map total_pay (eligible_rows df t)))
                  (map hours_required (eligible_rows df t)) h = Returned r
    /\ success r = true
    /\ iloc (eligible_rows df t) (selected_indices_of (x r)) = Returned sel
    /\ o = Some (optimization_results_of sel (length df) h)
    /\ e = None.
Proof.
  unfold optimize_projects.
  destruct (length df =? 0)%nat; [discriminate|].
  destruct (length (eligible_rows df t) =? 0)%nat; [discriminate|].
  rewrite solve_and_report_call.
  destruct (knapsack_call _ _ _ _) as [r|msg] eqn:Hc; simpl; [|discriminate].
  destruct (success r) eqn:Hs; [|discriminate].
  destruct (iloc _ _) as [rows|msg] eqn:Hi; simpl; [|discriminate].
  intros H. inversion H; subst. exists r.
  repeat split; solve [reflexivity | assumption].
Qed.

(** The metrics are always those of the returned selection. *)
Lemma optimize_projects_metrics (milp : Solver) (df : DataFrame) (h t : Q)
    (sel : DataFrame) (res : OptimizationResults) (e : option string) :
  optimize_projects milp df h t = (Some sel, Some res, e) ->
  res = optimization_results_of sel (length df) h.
Proof.
  intros H. apply optimize_projects_success_inv in H.
  destruct H as [r [_ [_ [_ [Ho _]]]]]. congruence.
Qed.

Lemma hours_of_nonneg_pool (pool s : DataFrame) :
  Forall (fun p => 0 < hours_required p) pool ->
  Subseq s pool -> hours_of s <= 0 -> s = [].
Proof.
  intros Hpos Hsub Hle.
  assert (Hs : Forall (fun p => 0 < hours_required p) s).
  { apply Forall_forall. intros p Hp.
    apply (proj1 (Forall_forall _ _) Hpos). apply (Subseq_In s pool); assumption. }
  assert (Hsum : forall l, Forall (fun p => 0 < hours_required p) l ->
                           0 <= hours_of l).
  { induction 1 as [|p l Hp _ IH]; unfold hours_of in *; simpl; lra. }
  destruct s as [|p s]; [reflexivity|]. exfalso.
  inversion Hs as [|? ? Hp Hrest]; subst.
  specialize (Hsum s Hrest). unfold hours_of in *. simpl in Hle. lra.
Qed.

(** ** The selection under an exact solver *)

Section WithExactSolver.

Variable milp : Solver.
Hypothesis milp_is_sound : milp_sound milp.
Hypothesis milp_is_complete : milp_complete milp.

Lemma length_objective (el : DataFrame) :
  length (map hours_required el) = length (map Qopp (map total_pay el)).
Proof. rewrite !length_map. reflexivity. Qed.

Lemma mask_feasible_point (el : DataFrame) (h : Q) (mask : list bool) :
  length mask = length el ->
  hours_of (boolean_index el mask) <= h ->
  feasible_point (map hours_required el) h
                 (length (map Qopp (map total_pay el))) (indicator mask).
Proof.
  intros Hlen Hfit. rewrite !length_map, <- Hlen.
  apply indicator_feasible. rewrite dot_indicator_rows. exact Hfit.
Qed.

Lemma objective_of_mask (el : DataFrame) (mask : list bool) :
  dot (map Qopp (map total_pay el)) (indicator mask)
  == - pay_of (boolean_index el mask).
Proof. rewrite dot_opp, dot_indicator_rows. reflexivity. Qed.

(** What a returned selection is: a feasible choice of eligible rows that
    no feasible choice outearns, together with its metrics. *)
Lemma selected_is_optimal (df : DataFrame) (h t : Q) (sel : DataFrame)
    (o : option OptimizationResults) (e : option string) :
  optimize_projects milp df h t = (Some sel, o, e) ->
  o = Some (optimization_results_of sel (length df) h) /\ e = None /\
  FeasibleSelection (eligible_rows df t) h sel /\
  forall s, FeasibleSelection (eligible_rows df t) h s ->
            pay_of s <= pay_of sel.
Proof.
  intros H. apply optimize_projects_success_inv in H.
  destruct H as [r [Hcall [Hsucc [Hiloc [Ho He]]]]].
  set (el := eligible_rows df t) in *.
  destruct (milp_is_sound _ _ _ _ (length_objective el) Hcall Hsucc)
    as [Hfeas Hmin].
  pose proof (feasible_point_binary _ _ _ _ Hfeas) as Hbin.
  assert (Hlen : length (x r) = length el).
  { destruct Hfeas as [Hl _]. rewrite Hl, !length_map. reflexivity. }
  rewrite (iloc_selected el (x r) Hlen) in Hiloc.
  inversion Hiloc as [Hsel]. clear Hiloc.
  split; [rewrite Hsel; exact Ho|]. split; [exact He|]. split.
  - split; [apply Subseq_boolean_index|].
    unfold hours_of. rewrite <- dot_indicator_rows.
    rewrite dot_above_half by exact Hbin. apply Hfeas.
  - intros s [Hsub Hfit].
    destruct (Subseq_mask s el Hsub) as [mask [Hmlen ->]].
    specialize (Hmin _ (mask_feasible_point el h mask Hmlen Hfit)).
    rewrite <- (dot_above_half _ (x r) Hbin) in Hmin.
    rewrite !objective_of_mask in Hmin. lra.
Qed.

(** A pool with a feasible choice is solved. *)
Lemma optimize_projects_succeeds (df : DataFrame) (h t : Q) (s : DataFrame) :
  eligible_rows df t <> [] ->
  FeasibleSelection (eligible_rows df t) h s ->
  exists sel,
    optimize_projects milp df h t
    = (Some sel, Some (optimization_results_of sel (length df) h), None).
Proof.
  intros Hel [Hsub Hfit].
  set (el := eligible_rows df t) in *.
  destruct (Subseq_mask s el Hsub) as [mask [Hmlen ->]].
  destruct (milp_is_complete _ _ _ _ (length_objective el)
              (mask_feasible_point el h mask Hmlen Hfit))
    as [r [Hcall Hsucc]].
  destruct (milp_is_sound _ _ _ _ (length_objective el) Hcall Hsucc)
    as [[Hl _] _].
  assert (Hlen : length (x r) = length el)
    by (rewrite Hl, !length_map; reflexivity).
  exists (boolean_index el (above_half (x r))).
  rewrite optimize_projects_solves by exact Hel. fold el.
  rewrite solve_and_report_call, Hcall. simpl. rewrite Hsucc.
  rewrite (iloc_selected el (x r) Hlen). reflexivity.
Qed.

End WithExactSolver.

(** ** Eligibility *)

Lemma eligible_rows_In (df : DataFrame) (t : Q) (p : Project) :
  In p (eligible_rows df t) <-> In p df /\ t <= skill_match p.
Proof.
  rewrite eligible_rows_filter, filter_In, Qgeb_le. reflexivity.
Qed.

(** C3: for every candidate list and threshold [t] (inside [0,100] or not)
    the eligibility filter returns exactly the sub-sequence of the rows whose
    [skill_match] is at least [t]: it keeps rows of the input in their
    order, every row it keeps has a score [>= t], every sub-sequence of
    qualifying rows is contained in it, and a row is kept iff it is in the
    input with a score [>= t]; the comparison is not strict, a score equal
    to [t] qualifies; with threshold 90 and scores 95, 80, 90, 75 the rows
    kept are those with scores 95 and 90. *)
Theorem eligibility_filter_exact (df : DataFrame) (t : Q) :
  Subseq (eligible_rows df t) df
  /\ Forall (fun p => t <= skill_match p) (eligible_rows df t)
  /\ (forall s, Subseq s df -> Forall (fun p => t <= skill_match p) s ->
                Subseq s (eligible_rows df t))
  /\ (forall p, In p (eligible_rows df t) <-> In p df /\ t <= skill_match p)
  /\ (forall p, In p df -> skill_match p == t -> In p (eligible_rows df t))
  /\ (forall n1 n2 n3 n4 c1 c2 c3 c4 pay1 pay2 pay3 pay4
             h1 h2 h3 h4 d1 d2 d3 d4,
         eligible_rows [ mkProject n1 c1 pay1 h1 d1 95;
                         mkProject n2 c2 pay2 h2 d2 80;
                         mkProject n3 c3 pay3 h3 d3 90;
                         mkProject n4 c4 pay4 h4 d4 75 ] 90
         = [ mkProject n1 c1 pay1 h1 d1 95; mkProject n3 c3 pay3 h3 d3 90 ]).
Proof.
  refine (conj _ (conj _ (conj _ (conj _ (conj _ _))))).
  - rewrite eligible_rows_filter. apply Subseq_filter.
  - apply Forall_forall. intros p Hp. apply eligible_rows_In in Hp. tauto.
  - intros s Hsub Hall. rewrite eligible_rows_filter.
    apply Subseq_filter_greatest; [exact Hsub|].
    apply Forall_forall. intros p Hp. apply Qgeb_le.
    apply (proj1 (Forall_forall _ _) Hall p Hp).
  - intros p. apply eligible_rows_In.
  - intros p Hin Heq. apply eligible_rows_In. split; [exact Hin|].
    rewrite Heq. apply Qle_refl.
  - reflexivity.
Qed.

Lemma eligibility_filter_exact_witness :
  Subseq (eligible_rows sample_four 90) sample_four
  /\ eligible_rows sample_four 90
     = [ mkProject "E-commerce Website Redesign" "TechStart Inc" 2500 40 14 95;
         mkProject "Data Dashboard Development" "FinanceMetrics" 3200 50 21 90 ].
Proof.
  split.
  - exact (proj1 (eligibility_filter_exact sample_four 90)).
  - reflexivity.
Defined.

(** ** The failure paths *)

(** C7: for every non-empty candidate list none of whose rows reaches the
    threshold the call returns no selection and the message about the
    minimum skill match; the empty candidate list returns another message,
    "No projects to optimize", so the two outcomes are told apart. *)
Theorem no_eligible_items_distinct (milp : Solver) (df : DataFrame) (h t : Q) :
  df <> [] ->
  Forall (fun p => skill_match p < t) df ->
  optimize_projects milp df h t = failure msg_no_eligible
  /\ optimize_projects milp [] h t = failure msg_no_projects
  /\ optimize_projects milp df h t <> optimize_projects milp [] h t.
Proof.
  intros Hdf Hall.
  assert (Hel : eligible_rows df t = []).
  { destruct (eligible_rows df t) as [|p el] eqn:E; [reflexivity|]. exfalso.
    assert (Hp : In p (eligible_rows df t)) by (rewrite E; left; reflexivity).
    apply eligible_rows_In in Hp. destruct Hp as [Hin Hle].
    apply (Qlt_not_le _ _ (proj1 (Forall_forall _ _) Hall p Hin) Hle). }
  rewrite (optimize_projects_none_eligible milp df h t Hdf Hel).
  split; [reflexivity|]. split; [reflexivity|]. discriminate.
Qed.

Lemma no_eligible_items_distinct_witness :
  optimize_projects reference_milp sample_four 80 96 = failure msg_no_eligible
  /\ optimize_projects reference_milp [] 80 96 = failure msg_no_projects
  /\ optimize_projects reference_milp sample_four 80 96
     <> optimize_projects reference_milp [] 80 96.
Proof.
  apply (no_eligible_items_distinct reference_milp sample_four 80 96).
  - discriminate.
  - repeat constructor.
Defined.


(** ** No validation of the input shape *)

(** C8, counterexample: a frame with a negative pay and a negative number of
    hours, with the threshold -3, is not rejected: the solver is called on
    it, and with an exact solver the call succeeds and selects the row of
    -2 hours. *)
Lemma malformed_input_reaches_solver :
  optimize_projects (raising_milp "called") malformed_pair 10 (-3)
  = failure "Error during optimization: called"
  /\ optimize_projects reference_milp malformed_pair 10 (-3)
     = (Some [gig 7 (-2) 50],
        Some (optimization_results_of [gig 7 (-2) 50] 2 10), None).
Proof. split; vm_compute; reflexivity. Qed.

(** C8, as amended: the engine checks no input shape.  Whatever the pay, the
    hours, the threshold and the budget are, a call with at least one
    eligible row calls the solver (a solver that raises makes the call
    report that very exception), and a call is answered without the solver
    only for the empty candidate list and for the empty eligible pool, with
    their two messages. *)
Theorem no_shape_validation (df : DataFrame) (h t : Q) :
  (eligible_rows df t <> [] ->
   forall msg, optimize_projects (raising_milp msg) df h t
               = failure ("Error during optimization: " ++ msg)%string)
  /\ (eligible_rows df t = [] ->
      exists msg, (msg = msg_no_projects \/ msg = msg_no_eligible)
                  /\ forall milp, optimize_projects milp df h t = failure msg).
Proof.
  split.
  - intros Hel msg. rewrite optimize_projects_solves by exact Hel.
    reflexivity.
  - intros Hel. destruct df as [|p df].
    + exists msg_no_projects. split; [left; reflexivity|].
      intros milp. reflexivity.
    + exists msg_no_eligible. split; [right; reflexivity|].
      intros milp. apply optimize_projects_none_eligible;
        [discriminate|exact Hel].
Qed.

Lemma no_shape_validation_witness :
  optimize_projects (raising_milp "called") malformed_pair 10 (-3)
  = failure ("Error during optimization: " ++ "called")%string.
Proof.
  apply (proj1 (no_shape_validation malformed_pair 10 (-3))).
  discriminate.
Defined.

(** ** Optimality and feasibility *)

(** C1: with a solver that meets the contract of [milp], whenever the call
    returns a selection, that selection is a feasible choice of rows of the
    eligible pool (total hours within the budget), the reported total pay is
    its pay, and no feasible choice of rows of the eligible pool has a
    greater total pay: the reported pay is the maximum over the feasible
    subsets. *)
Theorem total_pay_is_maximal (milp : Solver) (df : DataFrame) (h t : Q)
    (sel : DataFrame) (res : OptimizationResults) :
  milp_sound milp ->
  optimize_projects milp df h t = (Some sel, Some res, None) ->
  FeasibleSelection (eligible_rows df t) h sel
  /\ total_earnings res = pay_of sel
  /\ forall s, FeasibleSelection (eligible_rows df t) h s ->
               pay_of s <= total_earnings res.
Proof.
  intros Hsound Hcall.
  destruct (selected_is_optimal milp Hsound df h t sel _ _ Hcall)
    as [Ho [_ [Hfeas Hmax]]].
  inversion Ho; subst res. simpl.
  split; [exact Hfeas|]. split; [reflexivity|exact Hmax].
Qed.

Lemma total_pay_is_maximal_witness :
  FeasibleSelection (eligible_rows sample_four 0) 80 sample_selected
  /\ total_earnings sample_results = pay_of sample_selected
  /\ forall s, FeasibleSelection (eligible_rows sample_four 0) 80 s ->
               pay_of s <= total_earnings sample_results.
Proof.
  apply (total_pay_is_maximal reference_milp sample_four 80 0
           sample_selected sample_results reference_milp_sound).
  vm_compute. reflexivity.
Defined.

(** C2: with a solver that meets the contract of [milp], whenever the call
    returns a selection, the reported total hours are the sum of
    [hours_required] over the selected rows and are at most the budget,
    hence at most the budget plus any tolerance [eps >= 0]; the reported
    [hours_remaining] is the budget minus the total hours and is not
    negative. *)
Theorem selection_within_budget (milp : Solver) (df : DataFrame) (h t : Q)
    (sel : DataFrame) (res : OptimizationResults) :
  milp_sound milp ->
  optimize_projects milp df h t = (Some sel, Some res, None) ->
  total_hours res = hours_of sel
  /\ total_hours res <= h
  /\ (forall eps, 0 <= eps -> total_hours res <= h + eps)
  /\ hours_remaining res = h - total_hours res
  /\ 0 <= hours_remaining res.
Proof.
  intros Hsound Hcall.
  destruct (selected_is_optimal milp Hsound df h t sel _ _ Hcall)
    as [Ho [_ [[_ Hfit] _]]].
  inversion Ho; subst res. simpl. fold (hours_of sel).
  split; [reflexivity|]. split; [exact Hfit|].
  split; [intros eps Heps; lra|]. split; [reflexivity|lra].
Qed.

Lemma selection_within_budget_witness :
  total_hours sample_results = hours_of sample_selected
  /\ total_hours sample_results <= 80
  /\ (forall eps, 0 <= eps -> total_hours sample_results <= 80 + eps)
  /\ hours_remaining sample_results = 80 - total_hours sample_results
  /\ 0 <= hours_remaining sample_results.
Proof.
  apply (selection_within_budget reference_milp sample_four 80 0
           sample_selected sample_results reference_milp_sound).
  vm_compute. reflexivity.
Defined.

(** ** Scenario A *)

Lemma eligible_rows_all (df : DataFrame) (t : Q) :
  Forall (fun p => t <= skill_match p) df -> eligible_rows df t = df.
Proof.
  intros Hall. rewrite eligible_rows_filter.
  induction Hall as [|p df Hp _ IH]; simpl; [reflexivity|].
  rewrite (proj2 (Qgeb_le _ _) Hp), IH. reflexivity.
Qed.

Lemma empty_selection_feasible (pool : DataFrame) (h : Q) :
  0 <= h -> FeasibleSelection pool h [].
Proof. intros Hh. split; [apply Subseq_nil_l|exact Hh]. Qed.

(** C4: with a solver that meets the contract of [milp], for any four
    candidates whose pay and hours are (2500,40), (1800,25), (3200,50) and
    (1500,20) and whose scores are not negative, budget 80 and threshold 0,
    the call returns the second and third candidates, with total pay 5000,
    total hours 75 and 5 hours remaining. *)
Theorem scenario_a_selection (milp : Solver) (p1 p2 p3 p4 : Project) :
  milp_sound milp ->
  milp_complete milp ->
  map (fun p => (total_pay p, hours_required p)) [p1; p2; p3; p4]
  = [(2500, 40); (1800, 25); (3200, 50); (1500, 20)] ->
  Forall (fun p => 0 <= skill_match p) [p1; p2; p3; p4] ->
  exists res,
    optimize_projects milp [p1; p2; p3; p4] 80 0
    = (Some [p2; p3], Some res, None)
    /\ total_earnings res == 5000
    /\ total_hours res == 75
    /\ hours_remaining res == 5.
Proof.
  intros Hsound Hcomplete Hrows Hskill.
  inversion Hrows as [[Hp1 Hh1 Hp2 Hh2 Hp3 Hh3 Hp4 Hh4]]. clear Hrows.
  set (df := [p1; p2; p3; p4]) in *.
  pose proof (eligible_rows_all df 0 Hskill) as Hel.
  assert (Hne : eligible_rows df 0 <> []) by (rewrite Hel; discriminate).
  destruct (optimize_projects_succeeds milp Hsound Hcomplete df 80 0 []
              Hne (empty_selection_feasible _ 80 ltac:(lra)))
    as [sel Hcall].
  destruct (selected_is_optimal milp Hsound df 80 0 sel _ _ Hcall)
    as [_ [_ [[Hsub Hfit] Hmax]]].
  rewrite Hel in Hsub, Hmax.
  assert (Hbest : FeasibleSelection df 80 [p2; p3]).
  { split; [repeat constructor|].
    unfold hours_of. simpl. rewrite Hh2, Hh3. lra. }
  specialize (Hmax _ Hbest).
  assert (Hsel : sel = [p2; p3]).
  { destruct (Subseq_mask sel df Hsub) as [mask [Hlen ->]].
    unfold hours_of, pay_of in Hfit, Hmax.
    destruct mask as [|b1 [|b2 [|b3 [|b4 [|b5 mask]]]]]; try discriminate.
    destruct b1, b2, b3, b4; simpl in Hfit, Hmax |- *;
      rewrite ?Hp1, ?Hp2, ?Hp3, ?Hp4 in Hmax;
      rewrite ?Hh1, ?Hh2, ?Hh3, ?Hh4 in Hfit;
      first [reflexivity | exfalso; lra]. }
  subst sel. eexists. split; [exact Hcall|].
  simpl. rewrite Hp2, Hp3, Hh2, Hh3. repeat split; lra.
Qed.

Lemma scenario_a_selection_witness :
  exists res,
    optimize_projects reference_milp sample_four 80 0
    = (Some sample_selected, Some res, None)
    /\ total_earnings res == 5000
    /\ total_hours res == 75
    /\ hours_remaining res == 5.
Proof.
  apply (scenario_a_selection reference_milp _ _ _ _
           reference_milp_sound reference_milp_complete).
  - reflexivity.
  - repeat constructor; unfold Qle; simpl; lia.
Defined.

(** ** Ties *)




(** ** Utilisation and the zero budget *)

(** C6, counterexample: on the four sample rows with 80 hours the call
    reports the utilisation 93.75, while total hours divided by the budget
    is 0.9375. *)
Lemma utilization_is_not_a_fraction :
  optimize_projects reference_milp sample_four 80 0
  = (Some sample_selected, Some sample_results, None)
  /\ 0 < 80
  /\ total_hours sample_results / 80 == 15 # 16
  /\ utilization sample_results == 375 # 4
  /\ ~ utilization sample_results == total_hours sample_results / 80.
Proof.
  split; [vm_compute; reflexivity|].
  split; [reflexivity|].
  split; [reflexivity|].
  split; [reflexivity|].
  vm_compute. discriminate.
Qed.

(** C6, as amended: for every successful call the reported utilisation is
    total hours divided by the budget, times 100 (a percentage), when the
    budget is positive, and 0 otherwise; and with a solver that meets the
    contract of [milp], a zero budget with a non-empty eligible pool of rows
    that all take a positive number of hours is answered with the empty
    selection, total pay 0, total hours 0 and utilisation 0, not with an
    error. *)
Theorem utilization_percentage (milp : Solver) (df : DataFrame) (h t : Q) :
  milp_sound milp ->
  milp_complete milp ->
  (forall sel res,
      optimize_projects milp df h t = (Some sel, Some res, None) ->
      (0 < h -> utilization res == total_hours res / h * 100)
      /\ (h <= 0 -> utilization res == 0))
  /\ (h == 0 ->
      eligible_rows df t <> [] ->
      Forall (fun p => 0 < hours_required p) (eligible_rows df t) ->
      exists res,
        optimize_projects milp df h t = (Some [], Some res, None)
        /\ total_earnings res == 0
        /\ total_hours res == 0
        /\ utilization res == 0).
Proof.
  intros Hsound Hcomplete. split.
  - intros sel res Hcall.
    rewrite (optimize_projects_metrics milp df h t sel res None Hcall).
    simpl. split; intros Hh.
    + rewrite (proj2 (Qgtb_lt h 0) Hh). reflexivity.
    + destruct (Qgtb h 0) eqn:E; [|reflexivity].
      apply Qgtb_lt in E. exfalso. apply (Qlt_not_le _ _ E Hh).
  - intros Hzero Hne Hpos.
    destruct (optimize_projects_succeeds milp Hsound Hcomplete df h t []
                Hne (empty_selection_feasible _ h ltac:(lra)))
      as [sel Hcall].
    destruct (selected_is_optimal milp Hsound df h t sel _ _ Hcall)
      as [_ [_ [[Hsub Hfit] _]]].
    assert (Hsel : sel = []).
    { apply (hours_of_nonneg_pool (eligible_rows df t)); [assumption..|lra]. }
    subst sel. eexists. split; [exact Hcall|]. simpl.
    split; [reflexivity|]. split; [reflexivity|].
    destruct (Qgtb h 0) eqn:E; [|reflexivity].
    apply Qgtb_lt in E. exfalso. lra.
Qed.

Lemma utilization_percentage_witness :
  exists res,
    optimize_projects reference_milp sample_four 0 0
    = (Some [], Some res, None)
    /\ total_earnings res == 0
    /\ total_hours res == 0
    /\ utilization res == 0.
Proof.
  apply (proj2 (utilization_percentage reference_milp sample_four 0 0
                  reference_milp_sound reference_milp_complete)).
  - reflexivity.
  - discriminate.
  - repeat constructor.
Defined.

(** ** Monotonicity *)

Lemma success_eligible_nonempty (milp : Solver) (df : DataFrame) (h t : Q)
    (sel : DataFrame) (o : option OptimizationResults) (e : option string) :
  optimize_projects milp df h t = (Some sel, o, e) ->
  eligible_rows df t <> [].
Proof.
  intros Hcall Hel. destruct df as [|p df]; [discriminate|].
  rewrite optimize_projects_none_eligible in Hcall;
    [discriminate|discriminate|exact Hel].
Qed.

Lemma eligible_rows_antitone (df : DataFrame) (t1 t2 : Q) :
  t1 <= t2 -> Subseq (eligible_rows df t2) (eligible_rows df t1).
Proof.
  intros Hle. rewrite (eligible_rows_filter df t1).
  apply Subseq_filter_greatest.
  - rewrite eligible_rows_filter. apply Subseq_filter.
  - apply Forall_forall. intros p Hp. apply eligible_rows_In in Hp.
    apply Qgeb_le. apply Qle_trans with t2; tauto.
Qed.

(** C9: with a solver that meets the contract of [milp], when the call
    succeeds with budget [b1] it also succeeds with any budget [b2 >= b1]
    on the same candidates and threshold, and the total pay it reports is
    not smaller; and for thresholds [t1 <= t2] on the same candidates the
    eligible pool of [t2] has at most as many rows as that of [t1]. *)
Theorem budget_and_threshold_monotone (milp : Solver) (df : DataFrame)
    (t b1 b2 t1 t2 : Q) :
  milp_sound milp ->
  milp_complete milp ->
  (b1 <= b2 ->
   forall sel1 res1,
     optimize_projects milp df b1 t = (Some sel1, Some res1, None) ->
     exists sel2 res2,
       optimize_projects milp df b2 t = (Some sel2, Some res2, None)
       /\ total_earnings res1 <= total_earnings res2)
  /\ (t1 <= t2 ->
      (length (eligible_rows df t2) <= length (eligible_rows df t1))%nat).
Proof.
  intros Hsound Hcomplete. split.
  - intros Hb sel1 res1 Hcall1.
    pose proof (success_eligible_nonempty _ _ _ _ _ _ _ Hcall1) as Hne.
    destruct (selected_is_optimal milp Hsound df b1 t sel1 _ _ Hcall1)
      as [Ho1 [_ [[Hsub1 Hfit1] _]]].
    assert (Hfeas2 : FeasibleSelection (eligible_rows df t) b2 sel1).
    { split; [exact Hsub1|]. apply Qle_trans with b1; assumption. }
    destruct (optimize_projects_succeeds milp Hsound Hcomplete df b2 t sel1
                Hne Hfeas2) as [sel2 Hcall2].
    destruct (selected_is_optimal milp Hsound df b2 t sel2 _ _ Hcall2)
      as [_ [_ [_ Hmax2]]].
    exists sel2. eexists. split; [exact Hcall2|].
    inversion Ho1; subst res1. simpl. apply Hmax2. exact Hfeas2.
  - intros Ht. apply Subseq_length. apply eligible_rows_antitone. exact Ht.
Qed.

Lemma budget_and_threshold_monotone_witness :
  (exists sel2 res2,
      optimize_projects reference_milp sample_four 100 0
      = (Some sel2, Some res2, None)
      /\ total_earnings sample_results <= total_earnings res2)
  /\ (length (eligible_rows sample_four 90)
      <= length (eligible_rows sample_four 80))%nat.
Proof.
  destruct (budget_and_threshold_monotone reference_milp sample_four
              0 80 100 80 90 reference_milp_sound reference_milp_complete)
    as [Hbudget Hthreshold].
  split.
  - apply (Hbudget ltac:(unfold Qle; simpl; lia) sample_selected).
    vm_compute. reflexivity.
  - apply Hthreshold. unfold Qle. simpl. lia.
Defined.

(** * Further properties of [optimize_projects] *)

(** ** Whatever the solver answers *)

Lemma Subseq_trans {A : Type} (s m l : list A) :
  Subseq s m -> Subseq m l -> Subseq s l.
Proof.
  intros Hsm Hml. revert s Hsm.
  induction Hml as [|a m l _ IH|a m l _ IH]; intros s Hsm.
  - exact Hsm.
  - inversion Hsm; subst.
    + constructor. apply IH. assumption.
    + apply Subseq_skip. apply IH. assumption.
  - apply Subseq_skip. apply IH. exact Hsm.
Qed.

Lemma Subseq_refl {A : Type} (l : list A) : Subseq l l.
Proof. induction l; constructor; assumption. Qed.

Lemma Subseq_app_l {A : Type} (l l' : list A) : Subseq l (l ++ l').
Proof.
  induction l as [|a l IH]; simpl; [apply Subseq_nil_l|].
  constructor. exact IH.
Qed.

Lemma skipn_nth_error {A : Type} (rows : list A) (i : nat) :
  skipn i rows = match nth_error rows i with
                 | Some r => r :: skipn (S i) rows
                 | None => []
                 end.
Proof.
  revert i. induction rows as [|a rows IH]; intros [|i]; simpl;
    try reflexivity.
  apply IH.
Qed.

(** When [iloc] returns, it returns the flagged rows: a flag past the end
    of the frame would have raised. *)
Lemma iloc_where_from_inv {A : Type} (flags : list bool) :
  forall (rows : list A) (i : nat) (sel : list A),
    iloc rows (where_from i flags) = Returned sel ->
    sel = boolean_index (skipn i rows) flags.
Proof.
  induction flags as [|b flags IH]; intros rows i sel Hiloc.
  - simpl in Hiloc. inversion Hiloc. destruct (skipn i rows); reflexivity.
  - rewrite (skipn_nth_error rows i). simpl in Hiloc.
    destruct b.
    + simpl in Hiloc. destruct (nth_error rows i) as [r|]; [|discriminate].
      destruct (iloc rows (where_from (S i) flags)) as [rs|] eqn:E;
        simpl in Hiloc; inversion Hiloc; subst sel.
      cbn [boolean_index]. f_equal. apply IH. exact E.
    + apply IH in Hiloc. subst sel.
      destruct (nth_error rows i) as [r|] eqn:E; [reflexivity|].
      rewrite (skipn_nth_error rows (S i)).
      assert (Hnone : nth_error rows (S i) = None).
      { apply nth_error_None. apply nth_error_None in E. lia. }
      rewrite Hnone. destruct flags; reflexivity.
Qed.

Lemma selection_is_subseq (milp : Solver) (df : DataFrame) (h t : Q)
    (sel : DataFrame) (o : option OptimizationResults) (e : option string) :
  optimize_projects milp df h t = (Some sel, o, e) ->
  Subseq sel (eligible_rows df t).
Proof.
  intros Hcall. apply optimize_projects_success_inv in Hcall.
  destruct Hcall as [r [_ [_ [Hiloc _]]]].
  apply iloc_where_from_inv in Hiloc. subst sel.
  apply Subseq_boolean_index.
Qed.

Lemma eligible_subseq_frame (df : DataFrame) (t : Q) :
  Subseq (eligible_rows df t) df.
Proof. rewrite eligible_rows_filter. apply Subseq_filter. Qed.

(** X1: whatever vector the solver reports, a returned selection keeps rows
    of the eligible pool in their input order, so every selected row meets
    the threshold; the count [projects_selected] is at most the size of the
    eligible pool, and [projects_available] is the number of all candidates,
    eligible or not. *)
Theorem selection_drawn_from_eligible (milp : Solver) (df : DataFrame)
    (h t : Q) (sel : DataFrame) (res : OptimizationResults) :
  optimize_projects milp df h t = (Some sel, Some res, None) ->
  Subseq sel (eligible_rows df t)
  /\ Subseq sel df
  /\ Forall (fun p => t <= skill_match p) sel
  /\ projects_selected res = length sel
  /\ (projects_selected res <= length (eligible_rows df t))%nat
  /\ (length (eligible_rows df t) <= projects_available res)%nat
  /\ projects_available res = length df.
Proof.
  intros Hcall.
  pose proof (selection_is_subseq _ _ _ _ _ _ _ Hcall) as Hsub.
  rewrite (optimize_projects_metrics _ _ _ _ _ _ _ Hcall). simpl.
  split; [exact Hsub|].
  split; [apply Subseq_trans with (eligible_rows df t);
          [exact Hsub|apply eligible_subseq_frame]|].
  split.
  { apply Forall_forall. intros p Hp.
    apply (Subseq_In _ _ _ Hsub) in Hp. apply eligible_rows_In in Hp. tauto. }
  split; [reflexivity|].
  split; [apply Subseq_length; exact Hsub|].
  split; [apply Subseq_length; apply eligible_subseq_frame|reflexivity].
Qed.

Lemma selection_drawn_from_eligible_witness :
  Subseq sample_selected (eligible_rows sample_four 0)
  /\ Subseq sample_selected sample_four
  /\ Forall (fun p => 0 <= skill_match p) sample_selected
  /\ projects_selected sample_results = length sample_selected
  /\ (projects_selected sample_results
      <= length (eligible_rows sample_four 0))%nat
  /\ (length (eligible_rows sample_four 0)
      <= projects_available sample_results)%nat
  /\ projects_available sample_results = length sample_four.
Proof.
  apply (selection_drawn_from_eligible reference_milp sample_four 80 0).
  vm_compute. reflexivity.
Defined.


(** ** Under an exact solver *)

Lemma Subseq_Forall {A : Type} (P : A -> Prop) (s l : list A) :
  Subseq s l -> Forall P l -> Forall P s.
Proof.
  intros Hsub Hall. apply Forall_forall. intros a Ha.
  apply (proj1 (Forall_forall _ _) Hall). apply (Subseq_In s l); assumption.
Qed.

Lemma col_sum_nonneg (f : Project -> Q) (rows : DataFrame) :
  Forall (fun p => 0 <= f p) rows -> 0 <= col_sum (map f rows).
Proof. induction 1 as [|p l Hp _ IH]; simpl; lra. Qed.

Lemma col_sum_subseq (f : Project -> Q) (s l : DataFrame) :
  Forall (fun p => 0 <= f p) l -> Subseq s l ->
  col_sum (map f s) <= col_sum (map f l).
Proof.
  intros Hall Hsub. induction Hsub as [|a s l _ IH|a s l _ IH]; simpl.
  - lra.
  - inversion Hall; subst. specialize (IH ltac:(assumption)). lra.
  - inversion Hall; subst. specialize (IH ltac:(assumption)). lra.
Qed.

(** X3: with a solver that meets the contract of [milp] and a budget that
    is not negative, the call fails only for the empty candidate list and
    for the empty eligible pool, each with its message; in every other case
    it returns a selection. *)
Theorem nonnegative_budget_outcomes (milp : Solver) (df : DataFrame)
    (h t : Q) :
  milp_sound milp ->
  milp_complete milp ->
  0 <= h ->
  (df = [] /\ optimize_projects milp df h t = failure msg_no_projects)
  \/ (df <> [] /\ eligible_rows df t = []
      /\ optimize_projects milp df h t = failure msg_no_eligible)
  \/ (eligible_rows df t <> []
      /\ exists sel res,
           optimize_projects milp df h t = (Some sel, Some res, None)).
Proof.
  intros Hsound Hcomplete Hh.
  destruct df as [|p df]; [left; split; reflexivity|].
  destruct (eligible_rows (p :: df) t) as [|q el] eqn:Hel.
  - right. left. split; [discriminate|]. split; [reflexivity|].
    apply optimize_projects_none_eligible; [discriminate|exact Hel].
  - right. right. split; [discriminate|].
    destruct (optimize_projects_succeeds milp Hsound Hcomplete (p :: df) h t []
                ltac:(rewrite Hel; discriminate)
                (empty_selection_feasible _ h Hh)) as [sel Hcall].
    exists sel. eexists. exact Hcall.
Qed.

Lemma nonnegative_budget_outcomes_witness :
  (sample_four = []
   /\ optimize_projects reference_milp sample_four 10 96
      = failure msg_no_projects)
  \/ (sample_four <> [] /\ eligible_rows sample_four 96 = []
      /\ optimize_projects reference_milp sample_four 10 96
         = failure msg_no_eligible)
  \/ (eligible_rows sample_four 96 <> []
      /\ exists sel res,
           optimize_projects reference_milp sample_four 10 96
           = (Some sel, Some res, None)).
Proof.
  apply (nonnegative_budget_outcomes reference_milp sample_four 10 96
           reference_milp_sound reference_milp_complete).
  unfold Qle. simpl. lia.
Defined.

Lemma oversize_rows_exceed (h : Q) (p : Project) (s : DataFrame) :
  0 <= h ->
  Forall (fun q => h < hours_required q) (p :: s) ->
  h < hours_of (p :: s).
Proof.
  intros Hh Hall. inversion Hall as [|? ? Hp Hs]; subst.
  assert (Hnn : 0 <= col_sum (map hours_required s)).
  { apply col_sum_nonneg. apply Forall_forall. intros q Hq.
    pose proof (proj1 (Forall_forall _ _) Hs q Hq). simpl in *. lra. }
  unfold hours_of. simpl. lra.
Qed.

(** X6: with a solver that meets the contract of [milp], when the budget is
    not negative and every eligible row alone needs more hours than the
    budget, the call succeeds with the empty selection: no project, total
    pay 0, total hours 0, the whole budget remaining. *)
Theorem oversize_rows_empty_selection (milp : Solver) (df : DataFrame)
    (h t : Q) :
  milp_sound milp ->
  milp_complete milp ->
  0 <= h ->
  eligible_rows df t <> [] ->
  Forall (fun p => h < hours_required p) (eligible_rows df t) ->
  exists res,
    optimize_projects milp df h t = (Some [], Some res, None)
    /\ projects_selected res = 0%nat
    /\ total_earnings res == 0
    /\ total_hours res == 0
    /\ hours_remaining res == h.
Proof.
  intros Hsound Hcomplete Hh Hne Hbig.
  destruct (optimize_projects_succeeds milp Hsound Hcomplete df h t []
              Hne (empty_selection_feasible _ h Hh)) as [sel Hcall].
  destruct (selected_is_optimal milp Hsound df h t sel _ _ Hcall)
    as [_ [_ [[Hsub Hfit] _]]].
  assert (Hsel : sel = []).
  { destruct sel as [|p s]; [reflexivity|]. exfalso.
    pose proof (oversize_rows_exceed h p s Hh
                  (Subseq_Forall _ _ _ Hsub Hbig)). lra. }
  subst sel. eexists. split; [exact Hcall|]. simpl.
  repeat split; lra.
Qed.

Lemma oversize_rows_empty_selection_witness :
  exists res,
    optimize_projects reference_milp sample_four 15 0
    = (Some [], Some res, None)
    /\ projects_selected res = 0%nat
    /\ total_earnings res == 0
    /\ total_hours res == 0
    /\ hours_remaining res == 15.
Proof.
  apply (oversize_rows_empty_selection reference_milp sample_four 15 0
           reference_milp_sound reference_milp_complete).
  - unfold Qle. simpl. lia.
  - discriminate.
  - repeat constructor.
Defined.

Lemma Subseq_full_pay (s l : DataFrame) :
  Forall (fun p => 0 < total_pay p) l ->
  Subseq s l -> pay_of l <= pay_of s -> s = l.
Proof.
  intros Hall Hsub. unfold pay_of.
  induction Hsub as [|a s l _ IH|a s l Hsub IH]; simpl; intros Hle.
  - reflexivity.
  - inversion Hall; subst. f_equal. apply IH; [assumption|lra].
  - exfalso. inversion Hall as [|? ? Ha Hl]; subst.
    assert (Hmono : col_sum (map total_pay s) <= col_sum (map total_pay l)).
    { apply col_sum_subseq; [|exact Hsub].
      apply Forall_forall. intros q Hq.
      pose proof (proj1 (Forall_forall _ _) Hl q Hq). simpl in *. lra. }
    lra.
Qed.

(** X7: with a solver that meets the contract of [milp], when all eligible
    rows together fit the budget and each of them pays something, the call
    selects the whole eligible pool. *)
Theorem all_fit_all_selected (milp : Solver) (df : DataFrame) (h t : Q) :
  milp_sound milp ->
  milp_complete milp ->
  eligible_rows df t <> [] ->
  Forall (fun p => 0 < total_pay p) (eligible_rows df t) ->
  hours_of (eligible_rows df t) <= h ->
  exists res,
    optimize_projects milp df h t
    = (Some (eligible_rows df t), Some res, None)
    /\ total_earnings res = pay_of (eligible_rows df t).
Proof.
  intros Hsound Hcomplete Hne Hpay Hfit.
  assert (Hall : FeasibleSelection (eligible_rows df t) h (eligible_rows df t))
    by (split; [apply Subseq_refl|exact Hfit]).
  destruct (optimize_projects_succeeds milp Hsound Hcomplete df h t _
              Hne Hall) as [sel Hcall].
  destruct (selected_is_optimal milp Hsound df h t sel _ _ Hcall)
    as [_ [_ [[Hsub _] Hmax]]].
  pose proof (Subseq_full_pay _ _ Hpay Hsub (Hmax _ Hall)) as Hsel.
  subst sel. eexists. split; [exact Hcall|reflexivity].
Qed.

Lemma all_fit_all_selected_witness :
  exists res,
    optimize_projects reference_milp sample_four 135 0
    = (Some (eligible_rows sample_four 0), Some res, None)
    /\ total_earnings res = pay_of (eligible_rows sample_four 0).
Proof.
  apply (all_fit_all_selected reference_milp sample_four 135 0
           reference_milp_sound reference_milp_complete).
  - discriminate.
  - repeat constructor.
  - vm_compute. discriminate.
Defined.

(** ** Changing the inputs *)

(** A success on one pool carries over to any pool that contains it, with
    a total pay that is not smaller. *)
Lemma larger_pool_pays_more (milp : Solver) (df df' : DataFrame)
    (h t t' : Q) (sel : DataFrame) (res : OptimizationResults) :
  milp_sound milp ->
  milp_complete milp ->
  Subseq (eligible_rows df t) (eligible_rows df' t') ->
  optimize_projects milp df h t = (Some sel, Some res, None) ->
  exists sel' res',
    optimize_projects milp df' h t' = (Some sel', Some res', None)
    /\ total_earnings res <= total_earnings res'.
Proof.
  intros Hsound Hcomplete Hpool Hcall.
  pose proof (success_eligible_nonempty _ _ _ _ _ _ _ Hcall) as Hne.
  destruct (selected_is_optimal milp Hsound df h t sel _ _ Hcall)
    as [Ho [_ [[Hsub Hfit] _]]].
  assert (Hfeas : FeasibleSelection (eligible_rows df' t') h sel).
  { split; [|exact Hfit]. apply Subseq_trans with (eligible_rows df t);
      assumption. }
  assert (Hne' : eligible_rows df' t' <> []).
  { intros Hnil. rewrite Hnil in Hpool. inversion Hpool. congruence. }
  destruct (optimize_projects_succeeds milp Hsound Hcomplete df' h t' sel
              Hne' Hfeas) as [sel' Hcall'].
  destruct (selected_is_optimal milp Hsound df' h t' sel' _ _ Hcall')
    as [_ [_ [_ Hmax]]].
  exists sel'. eexists. split; [exact Hcall'|].
  inversion Ho; subst res. simpl. apply Hmax. exact Hfeas.
Qed.

Lemma eligible_rows_app (df df' : DataFrame) (t : Q) :
  eligible_rows (df ++ df') t = eligible_rows df t ++ eligible_rows df' t.
Proof. rewrite !eligible_rows_filter. apply filter_app. Qed.

(** X9: with a solver that meets the contract of [milp], appending a
    candidate to the frame (what the entry form does) keeps a successful
    call successful and never lowers the total pay, whatever the new row
    is. *)
Theorem added_candidate_pays_more (milp : Solver) (df : DataFrame)
    (p : Project) (h t : Q) (sel : DataFrame) (res : OptimizationResults) :
  milp_sound milp ->
  milp_complete milp ->
  optimize_projects milp df h t = (Some sel, Some res, None) ->
  exists sel' res',
    optimize_projects milp (df ++ [p]) h t = (Some sel', Some res', None)
    /\ total_earnings res <= total_earnings res'.
Proof.
  intros Hsound Hcomplete Hcall.
  apply (larger_pool_pays_more milp df (df ++ [p]) h t t sel res
           Hsound Hcomplete); [|exact Hcall].
  rewrite eligible_rows_app. apply Subseq_app_l.
Qed.

Lemma added_candidate_pays_more_witness :
  exists sel' res',
    optimize_projects reference_milp (sample_four ++ [gig 900 5 70]) 80 0
    = (Some sel', Some res', None)
    /\ total_earnings sample_results <= total_earnings res'.
Proof.
  apply (added_candidate_pays_more reference_milp sample_four
           (gig 900 5 70) 80 0 sample_selected sample_results
           reference_milp_sound reference_milp_complete).
  vm_compute. reflexivity.
Defined.

(** ** The order of the candidates *)

Lemma Subseq_Permutation {A : Type} (l l' : list A) :
  Permutation l l' ->
  forall s, Subseq s l -> exists s', Subseq s' l' /\ Permutation s s'.
Proof.
  induction 1 as [|a l l' _ IH|a b l|l m n _ IH1 _ IH2]; intros s Hs.
  - inversion Hs; subst. exists []. split; constructor.
  - inversion Hs as [|? s0 ? Hs0|? ? ? Hs0]; subst.
    + destruct (IH _ Hs0) as [s' [Hsub Hperm]].
      exists (a :: s'). split; constructor; assumption.
    + destruct (IH _ Hs0) as [s' [Hsub Hperm]].
      exists s'. split; [apply Subseq_skip|]; assumption.
  - inversion Hs as [|? s0 ? Hs0|? ? ? Hs0]; subst;
      inversion Hs0 as [|? s1 ? Hs1|? ? ? Hs1]; subst.
    + exists (a :: b :: s1). split; [repeat constructor; assumption|].
      apply perm_swap.
    + exists (b :: s0). split; [|apply Permutation_refl].
      apply Subseq_skip. constructor. assumption.
    + exists (a :: s1). split; [|apply Permutation_refl].
      constructor. apply Subseq_skip. assumption.
    + exists s. split; [|apply Permutation_refl].
      apply Subseq_skip. apply Subseq_skip. assumption.
  - destruct (IH1 _ Hs) as [s1 [Hsub1 Hperm1]].
    destruct (IH2 _ Hsub1) as [s2 [Hsub2 Hperm2]].
    exists s2. split; [exact Hsub2|].
    apply Permutation_trans with s1; assumption.
Qed.

Lemma col_sum_Permutation (a b : list Q) :
  Permutation a b -> col_sum a == col_sum b.
Proof.
  induction 1 as [|x a b _ IH|x y a|a b c _ IH1 _ IH2]; simpl.
  - reflexivity.
  - rewrite IH. reflexivity.
  - lra.
  - rewrite IH1. exact IH2.
Qed.

Lemma eligible_rows_Permutation (df df' : DataFrame) (t : Q) :
  Permutation df df' ->
  Permutation (eligible_rows df t) (eligible_rows df' t).
Proof.
  intros Hperm. rewrite !eligible_rows_filter.
  induction Hperm as [|p l l' _ IH|p q l|l m n _ IH1 _ IH2]; simpl.
  - constructor.
  - destruct (Qgeb (skill_match p) t); [constructor|]; exact IH.
  - destruct (Qgeb (skill_match p) t), (Qgeb (skill_match q) t);
      try apply Permutation_refl. apply perm_swap.
  - apply Permutation_trans with
      (filter (fun p => Qgeb (skill_match p) t) m); assumption.
Qed.

(** A feasible selection of one pool has, in any reordering of the pool, a
    feasible selection of the same pay. *)
Lemma feasible_selection_reordered (pool pool' : DataFrame) (h : Q)
    (s : DataFrame) :
  Permutation pool pool' ->
  FeasibleSelection pool h s ->
  exists s', FeasibleSelection pool' h s' /\ pay_of s' == pay_of s.
Proof.
  intros Hperm [Hsub Hfit].
  destruct (Subseq_Permutation pool pool' Hperm s Hsub) as [s' [Hsub' Hp]].
  exists s'. unfold FeasibleSelection, hours_of, pay_of in *.
  rewrite <- (col_sum_Permutation _ _
                (Permutation_map hours_required Hp)).
  rewrite <- (col_sum_Permutation _ _ (Permutation_map total_pay Hp)).
  split; [split; assumption|reflexivity].
Qed.

(** X10: with a solver that meets the contract of [milp], the total pay
    does not depend on the order of the candidates: if the call succeeds
    on a frame it succeeds on every reordering of the frame, with the same
    total pay. *)
Theorem total_pay_order_independent (milp : Solver) (df df' : DataFrame)
    (h t : Q) (sel : DataFrame) (res : OptimizationResults) :
  milp_sound milp ->
  milp_complete milp ->
  Permutation df df' ->
  optimize_projects milp df h t = (Some sel, Some res, None) ->
  exists sel' res',
    optimize_projects milp df' h t = (Some sel', Some res', None)
    /\ total_earnings res' == total_earnings res.
Proof.
  intros Hsound Hcomplete Hperm Hcall.
  pose proof (eligible_rows_Permutation df df' t Hperm) as Hel.
  pose proof (success_eligible_nonempty _ _ _ _ _ _ _ Hcall) as Hne.
  destruct (selected_is_optimal milp Hsound df h t sel _ _ Hcall)
    as [Ho [_ [Hfeas Hmax]]].
  destruct (feasible_selection_reordered _ _ h sel Hel Hfeas)
    as [s' [Hfeas' Hpay']].
  assert (Hne' : eligible_rows df' t <> []).
  { intros Hnil. rewrite Hnil in Hel. apply Permutation_sym in Hel.
    apply Permutation_nil in Hel. contradiction. }
  destruct (optimize_projects_succeeds milp Hsound Hcomplete df' h t s'
              Hne' Hfeas') as [sel' Hcall'].
  destruct (selected_is_optimal milp Hsound df' h t sel' _ _ Hcall')
    as [_ [_ [Hfeas2 Hmax']]].
  destruct (feasible_selection_reordered _ _ h sel'
              (Permutation_sym Hel) Hfeas2) as [s [Hfeas_s Hpay_s]].
  exists sel'. eexists. split; [exact Hcall'|].
  inversion Ho; subst res. simpl. fold (pay_of sel') (pay_of sel).
  specialize (Hmax _ Hfeas_s). specialize (Hmax' _ Hfeas').
  lra.
Qed.

Lemma total_pay_order_independent_witness :
  exists sel' res',
    optimize_projects reference_milp (rev sample_four) 80 0
    = (Some sel', Some res', None)
    /\ total_earnings res' == total_earnings sample_results.
Proof.
  apply (total_pay_order_independent reference_milp sample_four
           (rev sample_four) 80 0 sample_selected sample_results
           reference_milp_sound reference_milp_complete).
  - apply Permutation_rev.
  - vm_compute. reflexivity.
Defined.

(** * The results tab of [main] *)

(** ** Skipped projects *)

Lemma isin_In (name : string) (names : list string) :
  isin name names = true <-> In name names.
Proof.
  unfold isin. rewrite existsb_exists. split.
  - intros [n [Hin Heq]]. apply String.eqb_eq in Heq. subst n. exact Hin.
  - intros Hin. exists name. split; [exact Hin|apply String.eqb_refl].
Qed.

Lemma skipped_projects_In (df sel : DataFrame) (p : Project) :
  In p (skipped_projects df sel)
  <-> In p df /\ ~ In (project_name p) (map project_name sel).
Proof.
  unfold skipped_projects. rewrite filter_In, negb_true_iff.
  rewrite <- isin_In.
  destruct (isin (project_name p) (map project_name sel)); intuition congruence.
Qed.

Lemma unique_names_inj (df : DataFrame) (p q : Project) :
  NoDup (map project_name df) ->
  In p df -> In q df -> project_name p = project_name q -> p = q.
Proof.
  induction df as [|a df IH]; simpl; intros Hnd Hp Hq Heq; [contradiction|].
  inversion Hnd as [|? ? Hnotin Hnd']; subst.
  destruct Hp as [->|Hp], Hq as [->|Hq].
  - reflexivity.
  - exfalso. apply Hnotin. rewrite Heq. apply in_map. exact Hq.
  - exfalso. apply Hnotin. rewrite <- Heq. apply in_map. exact Hp.
  - apply IH; assumption.
Qed.

Lemma skipped_projects_count (sel df : DataFrame) :
  Subseq sel df ->
  NoDup (map project_name df) ->
  (length (skipped_projects df sel) + length sel = length df)%nat.
Proof.
  unfold skipped_projects.
  induction 1 as [|a s l Hsub IH|a s l Hsub IH]; intros Hnd.
  - reflexivity.
  - inversion Hnd as [|? ? Hnotin Hnd']; subst.
    assert (Hext :
      filter (fun p => negb (isin (project_name p)
                                  (map project_name (a :: s)))) l
      = filter (fun p => negb (isin (project_name p)
                                    (map project_name s))) l).
    { apply filter_ext_in. intros p Hp. f_equal. unfold isin. simpl.
      destruct (String.eqb (project_name p) (project_name a)) eqn:E;
        [|reflexivity].
      exfalso. apply String.eqb_eq in E. apply Hnotin. rewrite <- E.
      apply in_map. exact Hp. }
    assert (Ha : isin (project_name a) (map project_name (a :: s)) = true)
      by (apply isin_In; left; reflexivity).
    cbn [filter]. rewrite Ha, Hext. cbn [negb length].
    specialize (IH Hnd'). lia.
  - inversion Hnd as [|? ? Hnotin Hnd']; subst.
    cbn [filter].
    assert (Hkeep : isin (project_name a) (map project_name s) = false).
    { destruct (isin _ _) eqn:E; [|reflexivity]. exfalso.
      apply isin_In in E. apply in_map_iff in E. destruct E as [q [Hq Hin]].
      apply Hnotin. rewrite <- Hq. apply in_map.
      apply (Subseq_In s l); assumption. }
    rewrite Hkeep. cbn [negb length]. specialize (IH Hnd'). lia.
Qed.

(** X11: the rows listed under SKIP are the rows of the frame whose name is
    not the name of a selected row, so no selected row is listed; when the
    names in the frame are all different and the selection comes from the
    frame, a row of the frame is skipped exactly when it is not selected,
    and the two lists together count every row once. *)
Theorem skipped_projects_complement (df sel : DataFrame) :
  (forall p, In p (skipped_projects df sel)
             <-> In p df /\ ~ In (project_name p) (map project_name sel))
  /\ (forall p, In p (skipped_projects df sel) -> ~ In p sel)
  /\ (Subseq sel df ->
      NoDup (map project_name df) ->
      (forall p, In p df -> (In p (skipped_projects df sel) <-> ~ In p sel))
      /\ (length (skipped_projects df sel) + length sel = length df)%nat).
Proof.
  split; [intros p; apply skipped_projects_In|].
  split.
  - intros p Hskip Hsel. apply skipped_projects_In in Hskip.
    apply (proj2 Hskip). apply in_map. exact Hsel.
  - intros Hsub Hnd. split; [|apply skipped_projects_count; assumption].
    intros p Hp. rewrite skipped_projects_In. split.
    + intros [_ Hname] Hsel. apply Hname. apply in_map. exact Hsel.
    + intros Hnot. split; [exact Hp|]. intros Hname.
      apply in_map_iff in Hname. destruct Hname as [q [Hq Hin]].
      apply Hnot.
      rewrite <- (unique_names_inj df q p Hnd
                    (Subseq_In _ _ _ Hsub Hin) Hp Hq).
      exact Hin.
Qed.

Lemma skipped_projects_complement_witness :
  (forall p, In p sample_four ->
             (In p (skipped_projects sample_four sample_selected)
              <-> ~ In p sample_selected))
  /\ (length (skipped_projects sample_four sample_selected)
      + length sample_selected = length sample_four)%nat.
Proof.
  apply (proj2 (proj2 (skipped_projects_complement
                         sample_four sample_selected))).
  - unfold sample_selected, sample_four. repeat constructor.
  - unfold sample_four. simpl.
    repeat constructor; simpl; intuition discriminate.
Defined.
